(** * sqlrender: a shallow embedding of the dialect-aware binder and renderer

    Embedding of [sqlrender.go]: the [QueryArgs] binder ([Bind],
    [Identifier], [placeholderFor], [quoteIdentifier]), the function table
    built by [Renderer.FromStringWithDialect], the call semantics of the
    [text/template] engine it hands that table to, and
    [Renderer.findTemplateFile]. *)

From stdpp Require Import base gmap strings list.
From Stdlib Require Import Strings.String Strings.Ascii Numbers.DecimalString Numbers.DecimalNat.

Local Open Scope string_scope.
Set Warnings "-register-all".

(* ------------------------------------------------------------------ *)
(** ** Go values passed as [any] *)

(** The runtime shapes of an [any] value that [Bind] distinguishes through
    [reflect]: the untyped [nil] interface (an invalid [reflect.Value]),
    slices (a typed nil slice such as [[]int(nil)] is its own constructor),
    arrays, and scalars (booleans, integers, strings, typed nil pointers). *)
Inductive any : Type :=
| Nil
| VBool (b : bool)
| VInt (z : Z)
| VString (s : string)
| VNilPtr
| VNilSlice
| VSlice (xs : list any)
| VArray (xs : list any).

(** [reflect.Kind], restricted to the kinds of the values above. *)
Inductive Kind := KInvalid | KBool | KInt | KString | KPtr | KSlice | KArray.

(** [reflect.ValueOf(arg).IsValid()] *)
Definition IsValid (v : any) : bool :=
  match v with Nil => false | _ => true end.

(** [reflect.ValueOf(arg).Kind()] *)
Definition kind (v : any) : Kind :=
  match v with
  | Nil => KInvalid
  | VBool _ => KBool
  | VInt _ => KInt
  | VString _ => KString
  | VNilPtr => KPtr
  | VNilSlice | VSlice _ => KSlice
  | VArray _ => KArray
  end.

(** [v.Len()] for slices and arrays (a nil slice has length 0). *)
Definition Len (v : any) : nat :=
  match v with
  | VSlice xs | VArray xs => List.length xs
  | _ => 0
  end.

(** [v.Index(i).Interface()] for slices and arrays. *)
Definition Index (v : any) (i : nat) : any :=
  match v with
  | VSlice xs | VArray xs => nth i xs Nil
  | _ => Nil
  end.

(* ------------------------------------------------------------------ *)
(** ** Dialects *)

(** [type Dialect string] *)
Definition Dialect := string.

Definition DialectPostgres : Dialect := "postgres".
Definition DialectMySQL : Dialect := "mysql".
Definition DialectSQLite : Dialect := "sqlite".
Definition DialectSQLServer : Dialect := "sqlserver".
Definition DialectSnowflake : Dialect := "snowflake".
Definition DialectOracle : Dialect := "oracle".

(* ------------------------------------------------------------------ *)
(** ** The binder *)

Record QueryArgs := mkQueryArgs { args : list any; dialect : Dialect }.

(** [NewQueryArgs(dialect)] *)
Definition NewQueryArgs (d : Dialect) : QueryArgs := mkQueryArgs [] d.

(** [fmt.Sprintf("%d", n)] *)
Definition itoa (n : nat) : string := NilEmpty.string_of_uint (Nat.to_uint n).

(** [qa.placeholderFor(n)] *)
Definition placeholderFor (qa : QueryArgs) (n : nat) : string :=
  let d := dialect qa in
  if String.eqb d DialectPostgres then "$" ++ itoa n
  else if String.eqb d DialectSQLServer then "@p" ++ itoa n
  else if String.eqb d DialectOracle then ":" ++ itoa n
  else "?". (* MySQL, SQLite, Snowflake *)

(** [qa.args = append(qa.args, x)] *)
Definition append_arg (qa : QueryArgs) (x : any) : QueryArgs :=
  mkQueryArgs (app (args qa) [x]) (dialect qa).

(** The body of the [for i := 0; i < n; i++] loop of [Bind], run over the
    elements [v.Index(0..n-1).Interface()] in order: append the element,
    then record [qa.placeholderFor(len(qa.args))]. *)
Fixpoint bind_loop (elems : list any) (qa : QueryArgs) : list string * QueryArgs :=
  match elems with
  | [] => ([], qa)
  | val :: rest =>
      let qa1 := append_arg qa val in
      let ph := placeholderFor qa1 (List.length (args qa1)) in
      let '(phs, qa2) := bind_loop rest qa1 in
      (ph :: phs, qa2)
  end.

(** [qa.Bind(arg)]: returns the placeholder text and the updated binder. *)
Definition Bind (qa : QueryArgs) (arg : any) : string * QueryArgs :=
  let v := arg in
  if negb (IsValid v) then
    let qa1 := append_arg qa Nil in
    (placeholderFor qa1 (List.length (args qa1)), qa1)
  else
    match kind v with
    | KSlice | KArray =>
        let n := Len v in
        if Nat.eqb n 0 then ("(NULL)", qa)
        else
          let '(placeholders, qa1) := bind_loop (map (Index v) (seq 0 n)) qa in
          ("(" ++ String.concat ", " placeholders ++ ")", qa1)
    | _ =>
        let qa1 := append_arg qa arg in
        (placeholderFor qa1 (List.length (args qa1)), qa1)
    end.

(** Binding a sequence of values one call after another, collecting the
    returned placeholders in call order. *)
Fixpoint bind_all (qa : QueryArgs) (vs : list any) : list string * QueryArgs :=
  match vs with
  | [] => ([], qa)
  | v :: rest =>
      let '(ph, qa1) := Bind qa v in
      let '(phs, qa2) := bind_all qa1 rest in
      (ph :: phs, qa2)
  end.

Example bind_postgres_slice_then_scalar :
  bind_all (NewQueryArgs DialectPostgres) [VSlice [VInt 1; VInt 2; VInt 3]; VBool true]
  = (["($1, $2, $3)"; "$4"],
     mkQueryArgs [VInt 1; VInt 2; VInt 3; VBool true] DialectPostgres).
Proof. reflexivity. Qed.

Example bind_sqlserver_slice_then_scalar :
  fst (bind_all (NewQueryArgs DialectSQLServer) [VSlice [VInt 1; VInt 2; VInt 3]; VBool true])
  = ["(@p1, @p2, @p3)"; "@p4"].
Proof. reflexivity. Qed.

(* ------------------------------------------------------------------ *)
(** ** Panics *)

(** Go panic values raised in this code: [Identifier] panics with
    [fmt.Sprintf("sqlrender: invalid identifier %q", s)], kept here as the
    offending text [s]; a custom template function may panic with any
    message; [template.Funcs] panics on a function name that is not a valid
    identifier. *)
Inductive panic_value :=
| PInvalidIdentifier (s : string)
| PCustom (msg : string)
| PInvalidFuncName.

(** The result of a Go call that may panic instead of returning. *)
Inductive outcome (A : Type) : Type :=
| Returned (a : A)
| Panicked (p : panic_value).
Arguments Returned {A} a.
Arguments Panicked {A} p.

Definition obind {A B} (m : outcome A) (k : A -> outcome B) : outcome B :=
  match m with
  | Returned a => k a
  | Panicked p => Panicked p
  end.

Notation "'let!' x := m 'in' k" := (obind m (fun x => k))
  (at level 200, x pattern, m at level 100, k at level 200).

(* ------------------------------------------------------------------ *)
(** ** Identifiers *)

(** One character of the class [[A-Za-z0-9._]]. *)
Definition ident_char (c : ascii) : bool :=
  let n := nat_of_ascii c in
  (Nat.leb 65 n && Nat.leb n 90)       (* A-Z *)
  || (Nat.leb 97 n && Nat.leb n 122)   (* a-z *)
  || (Nat.leb 48 n && Nat.leb n 57)    (* 0-9 *)
  || Ascii.eqb c "."%char
  || Ascii.eqb c "_"%char.

(** [identifierPattern.MatchString(s)] for [^[A-Za-z0-9._]+$]: the whole
    text is one or more characters of the class. (Go matches runes; a byte
    outside ASCII is never in the class and neither is any multi-byte rune,
    so matching byte by byte gives the same answer.) *)
Definition identifierPattern_MatchString (s : string) : bool :=
  negb (String.eqb s "") && forallb ident_char (list_ascii_of_string s).

(** [strings.Split(s, sep)] for a one-character separator: [n] occurrences
    of [sep] give [n+1] pieces, empty ones included. *)
Fixpoint split_on (sep : ascii) (s : string) : list string :=
  match s with
  | EmptyString => [""]
  | String c rest =>
      let pieces := split_on sep rest in
      if Ascii.eqb c sep then "" :: pieces
      else match pieces with
           | p :: ps => String c p :: ps
           | [] => [String c ""]
           end
  end.

(** The one-character string holding a double quote. *)
Definition dquote : string := String (ascii_of_nat 34) EmptyString.

(** [qa.quoteIdentifier(id)] *)
Definition quoteIdentifier (qa : QueryArgs) (id : string) : string :=
  let d := dialect qa in
  if String.eqb d DialectPostgres || String.eqb d DialectOracle then
    dquote ++ id ++ dquote
  else if String.eqb d DialectSQLServer then "[" ++ id ++ "]"
  else "`" ++ id ++ "`". (* MySQL, SQLite, Snowflake *)

(** [qa.Identifier(name)]: the quoted identifier, or a panic; the binder is
    threaded through like every method of [QueryArgs]. *)
Definition Identifier (qa : QueryArgs) (name : any) : outcome string * QueryArgs :=
  match name with
  | VString s =>
      if String.eqb s "" then (Returned "", qa)
      else if negb (identifierPattern_MatchString s) then
        (Panicked (PInvalidIdentifier s), qa)
      else
        let parts := map (quoteIdentifier qa) (split_on "." s) in
        (Returned (String.concat "." parts), qa)
  | _ => (Returned "", qa)
  end.

Example identifier_examples :
  fst (Identifier (NewQueryArgs DialectSQLServer) (VString "dbo.People")) = Returned "[dbo].[People]"
  /\ fst (Identifier (NewQueryArgs DialectSnowflake) (VString "SNOW.TBL")) = Returned "`SNOW`.`TBL`"
  /\ fst (Identifier (NewQueryArgs DialectPostgres) (VString "users;DROP"))
     = Panicked (PInvalidIdentifier "users;DROP")
  /\ fst (Identifier (NewQueryArgs DialectMySQL) (VInt 123)) = Returned "".
Proof. repeat split; reflexivity. Qed.

(* ------------------------------------------------------------------ *)
(** ** Template functions and the function table *)

(** A caller-registered template function, as the engine calls it: on its
    argument values it returns a string and a Go [error] (a message when
    non-nil), or it panics. The model covers registered values that are
    functions of a shape [text/template] accepts; a value of another type,
    which [Funcs] would also reject with a panic, has no counterpart here. *)
Definition CustomFn := list any -> outcome (string * option string).

(** The callables a template can name: the render's binder methods
    [qa.Bind] and [qa.Identifier] and the custom functions (the entries of
    the render's [template.FuncMap]), and the predefined functions of
    [text/template], which the engine consults after the FuncMap. *)
Inductive Func :=
| FBind
| FIdentifier
| FCustom (f : CustomFn)
| FBuiltin (name : string).

Record Renderer := mkRenderer {
  searchPaths : list string;
  defaultDialect : Dialect;
  customFuncs : gmap string CustomFn
}.

(** [NewRenderer(defaultDialect)] *)
Definition NewRenderer (d : Dialect) : Renderer := mkRenderer [] d ∅.

(** [r.AddFunc(name, fn)] *)
Definition AddFunc (r : Renderer) (name : string) (fn : CustomFn) : Renderer :=
  mkRenderer (searchPaths r) (defaultDialect r) (<[name := fn]> (customFuncs r)).

(** [r.AddSearchPath(path)] *)
Definition AddSearchPath (r : Renderer) (path : string) : Renderer :=
  mkRenderer (app (searchPaths r) [path]) (defaultDialect r) (customFuncs r).

(** The [funcMap] of [FromStringWithDialect]: the literal with [bind] and
    [identifier], then [for name, fn := range r.customFuncs { funcMap[name] = fn }]. *)
Definition buildFuncMap (custom : gmap string CustomFn) : gmap string Func :=
  map_fold (fun name fn (m : gmap string Func) => <[name := FCustom fn]> m)
    (<["bind" := FBind]> (<["identifier" := FIdentifier]> ∅)) custom.

(* ------------------------------------------------------------------ *)
(** ** The template engine ([text/template]) as [FromStringWithDialect] uses it *)

(** A call argument: a constant or a field [.Key] of the data map. *)
Inductive arg :=
| ALit (v : any)
| AField (key : string).

(** A parsed template action: literal text, or a call of a named function. *)
Inductive node :=
| NText (s : string)
| NCall (fn : string) (args : list arg).

Definition template := list node.

(** Why a function call failed during execution. *)
Inductive exec_cause :=
| ReturnedError (msg : string)
| RecoveredPanic (p : panic_value)
| WrongNumArgs (want got : nat).

(** The errors [Parse] and [Execute] return. *)
Inductive tmpl_error :=
| FuncNotDefined (name : string)
| ErrorCalling (name : string) (cause : exec_cause).

(** [.Key] on a [map[string]any]: a missing key evaluates to the invalid
    value, which reaches an [any] parameter as [nil]. A nil data map reads
    like an empty one. *)
Definition eval_arg (data : gmap string any) (a : arg) : any :=
  match a with
  | ALit v => v
  | AField k => match data !! k with Some v => v | None => Nil end
  end.

(** The engine's [safeCall]: a panic in the called function is recovered and
    becomes the call's error; a non-nil returned error is the call's error. *)
Definition safeCall (o : outcome (string * option string)) : string + exec_cause :=
  match o with
  | Returned (s, None) => inl s
  | Returned (_, Some msg) => inr (ReturnedError msg)
  | Panicked p => inr (RecoveredPanic p)
  end.

(** The names of [text/template]'s predefined functions ([builtins()]). *)
Definition builtinNames : list string :=
  ["and"; "call"; "html"; "index"; "slice"; "js"; "len"; "not"; "or";
   "print"; "printf"; "println"; "urlquery";
   "eq"; "ge"; "gt"; "le"; "lt"; "ne"].

(** [findFunction(name, tmpl)], which both the parser and the executor use:
    the functions installed by [Funcs] first, then the predefined ones. *)
Definition findFunction (fm : gmap string Func) (name : string) : option Func :=
  match fm !! name with
  | Some f => Some f
  | None => if existsb (String.eqb name) builtinNames then Some (FBuiltin name) else None
  end.

(** The check [Parse] makes against the functions: every called name is
    found; the first one that is not is the parse error. *)
Fixpoint Parse (fm : gmap string Func) (t : template) : option tmpl_error :=
  match t with
  | [] => None
  | NText _ :: rest => Parse fm rest
  | NCall fn _ :: rest =>
      match findFunction fm fn with
      | None => Some (FuncNotDefined fn)
      | Some _ => Parse fm rest
      end
  end.

(** [utf8.RuneError] *)
Definition RuneError : nat := 65533.

(** A byte in [[lo, hi]]. *)
Definition byte_in (lo hi : nat) (b : ascii) : bool :=
  Nat.leb lo (nat_of_ascii b) && Nat.leb (nat_of_ascii b) hi.

(** The [first] table of [unicode/utf8] for a non-ASCII leading byte: the
    sequence length and the accepted range of the second byte; [None] for a
    byte that cannot start a sequence. *)
Definition utf8_first (b0 : nat) : option (nat * nat * nat) :=
  if Nat.leb 194 b0 && Nat.leb b0 223 then Some (2, 128, 191)
  else if Nat.eqb b0 224 then Some (3, 160, 191)
  else if Nat.leb 225 b0 && Nat.leb b0 236 then Some (3, 128, 191)
  else if Nat.eqb b0 237 then Some (3, 128, 159)
  else if Nat.leb 238 b0 && Nat.leb b0 239 then Some (3, 128, 191)
  else if Nat.eqb b0 240 then Some (4, 144, 191)
  else if Nat.leb 241 b0 && Nat.leb b0 243 then Some (4, 128, 191)
  else if Nat.eqb b0 244 then Some (4, 128, 143)
  else None.

(** [utf8.DecodeRuneInString] on a non-empty string [String s0 rest]: the
    rune and the bytes after it. An invalid or truncated sequence decodes
    to [RuneError] and consumes one byte. *)
Definition DecodeRune (s0 : ascii) (rest : string) : nat * string :=
  let b0 := nat_of_ascii s0 in
  if Nat.ltb b0 128 then (b0, rest) else
  match utf8_first b0 with
  | None => (RuneError, rest)
  | Some (sz, lo, hi) =>
      match rest with
      | String s1 rest1 =>
          if negb (byte_in lo hi s1) then (RuneError, rest) else
          let x1 := Nat.land (nat_of_ascii s1) 63 in
          if Nat.eqb sz 2 then (Nat.lor (Nat.shiftl (Nat.land b0 31) 6) x1, rest1) else
          match rest1 with
          | String s2 rest2 =>
              if negb (byte_in 128 191 s2) then (RuneError, rest) else
              let x2 := Nat.land (nat_of_ascii s2) 63 in
              if Nat.eqb sz 3 then
                (Nat.lor (Nat.lor (Nat.shiftl (Nat.land b0 15) 12) (Nat.shiftl x1 6)) x2, rest2)
              else
              match rest2 with
              | String s3 rest3 =>
                  if negb (byte_in 128 191 s3) then (RuneError, rest) else
                  (Nat.lor (Nat.lor (Nat.lor (Nat.shiftl (Nat.land b0 7) 18) (Nat.shiftl x1 12))
                              (Nat.shiftl x2 6)) (Nat.land (nat_of_ascii s3) 63), rest3)
              | EmptyString => (RuneError, rest)
              end
          | EmptyString => (RuneError, rest)
          end
      | EmptyString => (RuneError, rest)
      end
  end.

(** The runes [for _, r := range s] visits; each step consumes at least one
    byte, so the length of [s] bounds the steps. *)
Fixpoint runes_fuel (fuel : nat) (s : string) : list nat :=
  match fuel, s with
  | S fuel', String c rest => let '(r, rest') := DecodeRune c rest in r :: runes_fuel fuel' rest'
  | _, _ => []
  end.

Definition runes (s : string) : list nat := runes_fuel (String.length s) s.

Section Render.

(** What a predefined function of [text/template] does on its argument
    values: the text it prints, or the cause of its failure (an error it
    returns, or a panic [safeCall] recovers). These functions belong to the
    Go library and never reach the render's binder. *)
Variable builtin : string -> list any -> string + exec_cause.

(** [unicode.IsLetter] and [unicode.IsDigit] on runes outside ASCII: the
    Unicode tables of the Go library. *)
Variable IsLetterNonASCII : nat -> bool.
Variable IsDigitNonASCII : nat -> bool.

(** [unicode.IsLetter] *)
Definition IsLetter (r : nat) : bool :=
  if Nat.ltb r 128 then (Nat.leb 65 r && Nat.leb r 90) || (Nat.leb 97 r && Nat.leb r 122)
  else IsLetterNonASCII r.

(** [unicode.IsDigit] *)
Definition IsDigit (r : nat) : bool :=
  if Nat.ltb r 128 then Nat.leb 48 r && Nat.leb r 57 else IsDigitNonASCII r.

(** [text/template]'s [goodName]: non-empty; the first rune ['_'] or a
    letter, every other rune ['_'], a letter or a digit. *)
Definition goodName (name : string) : bool :=
  match runes name with
  | [] => false
  | r0 :: rs =>
      (Nat.eqb r0 95 || IsLetter r0)
      && forallb (fun r => Nat.eqb r 95 || IsLetter r || IsDigit r) rs
  end.

(** [template.New("sql").Funcs(funcMap)]: [addValueFuncs] panics with
    [function name %q is not a valid identifier] at a name [goodName]
    rejects. Which one it reports, when several are bad, depends on the map's
    iteration order, so the panic value does not record it. *)
Definition Funcs (funcMap : gmap string Func) : outcome unit :=
  if forallb (fun kv => goodName kv.1) (map_to_list funcMap) then Returned tt
  else Panicked PInvalidFuncName.

(** Calling one function on evaluated arguments. [Bind] and [Identifier]
    take exactly one argument; the engine checks the count before the
    call. *)
Definition call (f : Func) (argv : list any) (qa : QueryArgs)
  : (string + exec_cause) * QueryArgs :=
  match f with
  | FBind =>
      match argv with
      | [v] => let '(s, qa1) := Bind qa v in (inl s, qa1)
      | _ => (inr (WrongNumArgs 1 (List.length argv)), qa)
      end
  | FIdentifier =>
      match argv with
      | [v] =>
          let '(o, qa1) := Identifier qa v in
          (safeCall (let! s := o in Returned (s, None)), qa1)
      | _ => (inr (WrongNumArgs 1 (List.length argv)), qa)
      end
  | FCustom fn => (safeCall (fn argv), qa)
  | FBuiltin name => (builtin name argv, qa)
  end.

(** [tmpl.Execute(&buf, data)]: runs the actions in order, writing to the
    buffer; the first failing call stops execution with its error. Returns
    the error (if any), the buffer, and the binder. *)
Fixpoint Execute (fm : gmap string Func) (data : gmap string any) (t : template)
    (qa : QueryArgs) (buf : string) : outcome (option tmpl_error * string * QueryArgs) :=
  match t with
  | [] => Returned (None, buf, qa)
  | NText s :: rest => Execute fm data rest qa (buf ++ s)
  | NCall fn a :: rest =>
      match findFunction fm fn with
      | None => Returned (Some (FuncNotDefined fn), buf, qa)
      | Some f =>
          let '(r, qa1) := call f (map (eval_arg data) a) qa in
          match r with
          | inl s => Execute fm data rest qa1 (buf ++ s)
          | inr cause => Returned (Some (ErrorCalling fn cause), buf, qa1)
          end
      end
  end.

(** [r.FromStringWithDialect(s, data, dialect)]: the rendered text, the
    bound arguments and the error, as Go returns them (a nil [[]any] is
    [[]]), or the panic of [Funcs], which nothing recovers. *)
Definition FromStringWithDialect (r : Renderer) (t : template)
    (data : gmap string any) (d : Dialect)
    : outcome (string * list any * option tmpl_error) :=
  let qa := NewQueryArgs d in
  let funcMap := buildFuncMap (customFuncs r) in
  let! _ := Funcs funcMap in
  match Parse funcMap t with
  | Some err => Returned ("", [], Some err)
  | None =>
      let! res := Execute funcMap data t qa "" in
      match res with
      | (Some e, _, _) => Returned ("", [], Some e)
      | (None, buf, qa1) => Returned (buf, args qa1, None)
      end
  end.

(** [r.FromString(s, data)] *)
Definition FromString (r : Renderer) (t : template) (data : gmap string any)
    : outcome (string * list any * option tmpl_error) :=
  FromStringWithDialect r t data (defaultDialect r).

End Render.

(** Library parameters for the concrete checks of this file: no letter or
    digit outside ASCII, and a [print] of one string argument (the other
    predefined functions fail). Every statement proved below holds for
    every choice of these parameters. *)
Definition ascii_only : nat -> bool := fun _ => false.

Definition print_builtin (name : string) (argv : list any) : string + exec_cause :=
  match argv with
  | [VString s] => if String.eqb name "print" then inl s else inr (ReturnedError name)
  | _ => inr (ReturnedError name)
  end.

Example render_readme_postgres :
  FromString print_builtin ascii_only ascii_only (NewRenderer DialectPostgres)
    [NText "SELECT * FROM users WHERE id IN "; NCall "bind" [AField "IDs"];
     NText " AND active = "; NCall "bind" [AField "Active"]]
    (<["IDs" := VSlice [VInt 1; VInt 2; VInt 3]]> (<["Active" := VBool true]> ∅))
  = Returned ("SELECT * FROM users WHERE id IN ($1, $2, $3) AND active = $4",
              [VInt 1; VInt 2; VInt 3; VBool true], None).
Proof. vm_compute. reflexivity. Qed.

Example render_invalid_func_name :
  FromString print_builtin ascii_only ascii_only
    (AddFunc (NewRenderer DialectPostgres) "a-b" (fun _ => Returned ("x", None)))
    [NText "SELECT 1"] ∅
  = Panicked PInvalidFuncName.
Proof. vm_compute. reflexivity. Qed.

Example render_predefined_print :
  FromString print_builtin ascii_only ascii_only (NewRenderer DialectMySQL)
    [NCall "print" [ALit (VString "1")]] ∅
  = Returned ("1", [], None).
Proof. vm_compute. reflexivity. Qed.

Example goodName_unicode :
  goodName (fun r => Nat.eqb r 233) ascii_only
    ("caf" ++ String (ascii_of_nat 195) (String (ascii_of_nat 169) EmptyString)) = true
  /\ goodName (fun r => Nat.eqb r 233) ascii_only ("caf" ++ String (ascii_of_nat 195) EmptyString) = false
  /\ goodName ascii_only ascii_only "_x9" = true
  /\ goodName ascii_only ascii_only "9x" = false.
Proof. vm_compute. repeat split. Qed.

(* ------------------------------------------------------------------ *)
(** ** Template-file resolution *)

(** The error of [findTemplateFile]:
    [fmt.Errorf("sqlrender: template %q not found in search paths: %v", name, r.searchPaths)],
    kept as the two values it formats. *)
Inductive find_error :=
| TemplateNotFound (name : string) (paths : list string).

Section FindTemplate.

(** [os.Stat(p)] returns a nil error. *)
Variable Stat : string -> bool.
(** [filepath.Join(dir, name)] *)
Variable Join : string -> string -> string.

(** The [for _, dir := range r.searchPaths] loop. *)
Fixpoint search_dirs (dirs : list string) (name : string) : option string :=
  match dirs with
  | [] => None
  | dir :: rest =>
      let full := Join dir name in
      if Stat full then Some full else search_dirs rest name
  end.

(** [r.findTemplateFile(name)] *)
Definition findTemplateFile (r : Renderer) (name : string) : string + find_error :=
  if Stat name then inl name
  else match search_dirs (searchPaths r) name with
       | Some full => inl full
       | None => inr (TemplateNotFound name (searchPaths r))
       end.

End FindTemplate.

(* ------------------------------------------------------------------ *)
(** ** Renderer configuration *)

(** [r.SetDefaultDialect(d)] *)
Definition SetDefaultDialect (r : Renderer) (d : Dialect) : Renderer :=
  mkRenderer (searchPaths r) d (customFuncs r).

(** [r.SetSearchPaths(paths)] *)
Definition SetSearchPaths (r : Renderer) (paths : list string) : Renderer :=
  mkRenderer paths (defaultDialect r) (customFuncs r).

(** [r.AddFuncs(funcs)]: [for name, fn := range funcs { r.customFuncs[name] = fn }]. *)
Definition AddFuncs (r : Renderer) (funcs : gmap string CustomFn) : Renderer :=
  mkRenderer (searchPaths r) (defaultDialect r)
    (map_fold (fun name fn (m : gmap string CustomFn) => <[name := fn]> m) (customFuncs r) funcs).

(* ------------------------------------------------------------------ *)
(** ** Rendering template files *)

(** The errors [FromTemplateWithDialect] returns: the one of
    [findTemplateFile]; the read failure
    [fmt.Errorf("sqlrender: failed to read %q: %w", path, err)], kept as the
    path and the wrapped cause; or the one of [FromStringWithDialect]. *)
Inductive file_error :=
| FindFailed (e : find_error)
| ReadFailed (path : string) (cause : string)
| RenderFailed (e : tmpl_error).

Section FromTemplate.

(** [os.Stat(p)] returns a nil error. *)
Variable Stat : string -> bool.
(** [filepath.Join(dir, name)] *)
Variable Join : string -> string -> string.
(** [os.ReadFile(path)]: the file's contents (as the template they hold),
    or the error's message. *)
Variable ReadFile : string -> template + string.
(** The library parameters of [FromStringWithDialect]. *)
Variable builtin : string -> list any -> string + exec_cause.
Variable IsLetterNonASCII : nat -> bool.
Variable IsDigitNonASCII : nat -> bool.

(** The error of [FromStringWithDialect] passed on unchanged. *)
Definition lift_render (res : outcome (string * list any * option tmpl_error))
    : outcome (string * list any * option file_error) :=
  let! res := res in
  match res with
  | (text, a, Some e) => Returned (text, a, Some (RenderFailed e))
  | (text, a, None) => Returned (text, a, None)
  end.

(** [r.FromTemplateWithDialect(name, data, dialect)] *)
Definition FromTemplateWithDialect (r : Renderer) (name : string)
    (data : gmap string any) (d : Dialect)
    : outcome (string * list any * option file_error) :=
  match findTemplateFile Stat Join r name with
  | inr err => Returned ("", [], Some (FindFailed err))
  | inl path =>
      match ReadFile path with
      | inr cause => Returned ("", [], Some (ReadFailed path cause))
      | inl content =>
          lift_render (FromStringWithDialect builtin IsLetterNonASCII IsDigitNonASCII r content data d)
      end
  end.

(** [r.FromTemplate(name, data)] *)
Definition FromTemplate (r : Renderer) (name : string) (data : gmap string any)
    : outcome (string * list any * option file_error) :=
  FromTemplateWithDialect r name data (defaultDialect r).

End FromTemplate.

(* ------------------------------------------------------------------ *)
(** ** Helpers for the statements below *)

(** What [Bind] appends for one value: [nil] for the untyped nil, the
    elements of a slice or array (none for a nil slice), the value itself
    otherwise. *)
Definition bound_values (v : any) : list any :=
  match v with
  | Nil => [Nil]
  | VNilSlice => []
  | VSlice xs | VArray xs => xs
  | _ => [v]
  end.



(** The characters a dialect's identifier quoting adds. *)
Definition quote_chars (qa : QueryArgs) : list ascii :=
  let d := dialect qa in
  if String.eqb d DialectPostgres || String.eqb d DialectOracle then [ascii_of_nat 34]
  else if String.eqb d DialectSQLServer then ["["%char; "]"%char]
  else ["`"%char].

(* ------------------------------------------------------------------ *)
(** ** Shapes of bound values *)

(** A value [Bind] binds as a single scalar: valid, and of neither slice nor
    array kind. *)
Definition is_scalar (v : any) : bool :=
  IsValid v && match kind v with KSlice | KArray => false | _ => true end.

(** The elements of a slice or array value (a nil slice has none). *)
Definition collection_elems (v : any) : option (list any) :=
  match v with
  | VSlice xs | VArray xs => Some xs
  | VNilSlice => Some []
  | _ => None
  end.

(* ------------------------------------------------------------------ *)
(** ** Binder lemmas *)

Lemma placeholderFor_append (qa : QueryArgs) (x : any) (n : nat) :
  placeholderFor (append_arg qa x) n = placeholderFor qa n.
Proof. reflexivity. Qed.

Lemma Bind_scalar (qa : QueryArgs) (v : any) :
  is_scalar v = true ->
  Bind qa v = (placeholderFor qa (S (List.length (args qa))), append_arg qa v).
Proof.
  destruct v; simpl; intros H; try discriminate;
    unfold Bind; simpl; rewrite length_app; simpl; rewrite Nat.add_1_r; reflexivity.
Qed.

Lemma bind_all_scalars (qa : QueryArgs) (vs : list any) :
  Forall (fun v => is_scalar v = true) vs ->
  bind_all qa vs
  = (map (placeholderFor qa) (seq (S (List.length (args qa))) (List.length vs)),
     mkQueryArgs (app (args qa) vs) (dialect qa)).
Proof.
  revert qa. induction vs as [|v vs IH]; intros qa Hall.
  - simpl. rewrite app_nil_r. destruct qa; reflexivity.
  - inversion Hall as [|? ? Hv Hrest]; subst.
    simpl. rewrite (Bind_scalar qa v Hv). rewrite (IH _ Hrest). simpl.
    rewrite length_app. simpl. rewrite Nat.add_1_r, <- app_assoc. reflexivity.
Qed.

Lemma map_Index_seq (xs : list any) :
  map (fun i => nth i xs Nil) (seq 0 (List.length xs)) = xs.
Proof.
  induction xs as [|x xs IH]; [reflexivity|].
  simpl. f_equal. rewrite <- seq_shift, map_map. exact IH.
Qed.

Lemma bind_loop_spec (xs : list any) (qa : QueryArgs) :
  bind_loop xs qa
  = (map (placeholderFor qa) (seq (S (List.length (args qa))) (List.length xs)),
     mkQueryArgs (app (args qa) xs) (dialect qa)).
Proof.
  revert qa. induction xs as [|x xs IH]; intros qa.
  - simpl. rewrite app_nil_r. destruct qa; reflexivity.
  - simpl. rewrite IH. simpl. rewrite length_app. simpl.
    rewrite Nat.add_1_r, <- app_assoc. reflexivity.
Qed.

(* ------------------------------------------------------------------ *)
(** ** Claims about [Bind] *)

(** C1: under a positional dialect (Postgres [$n], SQL-Server [@pn], Oracle
    [:n]), binding [k] scalar values one after another on a fresh binder
    returns the placeholders numbered [1..k] in call order, and the binder's
    argument list is exactly those values in the same order. *)
Theorem bind_sequential_positional (d prefix : string) (vs : list any) :
  In (d, prefix) [(DialectPostgres, "$"); (DialectSQLServer, "@p"); (DialectOracle, ":")] ->
  Forall (fun v => is_scalar v = true) vs ->
  bind_all (NewQueryArgs d) vs
  = (map (fun i => prefix ++ itoa i) (seq 1 (List.length vs)), mkQueryArgs vs d).
Proof.
  intros Hd Hall.
  rewrite (bind_all_scalars _ _ Hall). simpl. f_equal.
  apply map_ext. intros n. unfold placeholderFor. simpl.
  destruct Hd as [Hd|[Hd|[Hd|[]]]]; injection Hd as <- <-; reflexivity.
Qed.

Lemma bind_sequential_positional_witness :
  (In (DialectSQLServer, "@p")
     [(DialectPostgres, "$"); (DialectSQLServer, "@p"); (DialectOracle, ":")]
   /\ Forall (fun v => is_scalar v = true) [VInt 1; VString "a"; VBool true])
  /\ bind_all (NewQueryArgs DialectSQLServer) [VInt 1; VString "a"; VBool true]
     = (map (fun i => "@p" ++ itoa i) (seq 1 3),
        mkQueryArgs [VInt 1; VString "a"; VBool true] DialectSQLServer).
Proof.
  split.
  - split; [simpl; auto | repeat constructor].
  - apply (bind_sequential_positional DialectSQLServer "@p" [VInt 1; VString "a"; VBool true]).
    + simpl; auto.
    + repeat constructor.
Defined.

(** C2: for a slice or array value, an empty one makes [Bind] return exactly
    ["(NULL)"] and leave the binder unchanged; one with [n > 0] elements
    appends the elements in order and returns the parenthesised,
    [", "]-joined list of the [n] placeholders for positions
    [len+1 .. len+n], continuing the running count. *)
Theorem bind_collection (qa : QueryArgs) (v : any) (xs : list any) :
  collection_elems v = Some xs ->
  (xs = [] -> Bind qa v = ("(NULL)", qa))
  /\ (xs <> [] ->
      Bind qa v
      = ("(" ++ String.concat ", "
                  (map (placeholderFor qa) (seq (S (List.length (args qa))) (List.length xs)))
             ++ ")",
         mkQueryArgs (app (args qa) xs) (dialect qa))).
Proof.
  intros Hv. split.
  - intros ->. destruct v as [| | | | | |ys|ys]; simpl in Hv; try discriminate;
      try (injection Hv as ->); reflexivity.
  - intros Hne.
    assert (Hlen : Nat.eqb (List.length xs) 0 = false).
    { destruct xs; [contradiction | reflexivity]. }
    destruct v; simpl in Hv; try discriminate; injection Hv as <-;
      try contradiction;
      unfold Bind; simpl; rewrite Hlen; unfold Index; rewrite map_Index_seq;
      rewrite bind_loop_spec; reflexivity.
Qed.

Lemma bind_collection_witness :
  collection_elems (VArray [VInt 6; VInt 7]) = Some [VInt 6; VInt 7]
  /\ Bind (mkQueryArgs [VInt 4; VInt 5] DialectPostgres) (VArray [VInt 6; VInt 7])
     = ("(" ++ String.concat ", "
                 (map (placeholderFor (mkQueryArgs [VInt 4; VInt 5] DialectPostgres)) (seq 3 2))
            ++ ")",
        mkQueryArgs [VInt 4; VInt 5; VInt 6; VInt 7] DialectPostgres).
Proof.
  split; [reflexivity|].
  apply (proj2 (bind_collection (mkQueryArgs [VInt 4; VInt 5] DialectPostgres)
                  (VArray [VInt 6; VInt 7]) [VInt 6; VInt 7] eq_refl)).
  discriminate.
Defined.

(** C10: only the untyped [nil] interface is bound as a null value (one
    [nil] argument, one placeholder); a typed nil slice is a slice of
    length 0, so [Bind] returns ["(NULL)"] and appends nothing. *)
Theorem bind_nil_vs_nil_slice (qa : QueryArgs) :
  Bind qa Nil = (placeholderFor qa (S (List.length (args qa))),
                 mkQueryArgs (app (args qa) [Nil]) (dialect qa))
  /\ Bind qa VNilSlice = ("(NULL)", qa).
Proof.
  split; [|reflexivity].
  unfold Bind; simpl. rewrite length_app; simpl. rewrite Nat.add_1_r. reflexivity.
Qed.

(* ------------------------------------------------------------------ *)
(** ** The function table *)

Lemma buildFuncMap_lookup (custom : gmap string CustomFn) (name : string) :
  buildFuncMap custom !! name
  = match custom !! name with
    | Some fn => Some (FCustom fn)
    | None => (<["bind" := FBind]> (<["identifier" := FIdentifier]> ∅) : gmap string Func) !! name
    end.
Proof.
  unfold buildFuncMap. revert name.
  induction custom as [|k fn m Hk IH] using map_ind; intros name.
  - rewrite map_fold_empty, lookup_empty. reflexivity.
  - rewrite map_fold_insert_L.
    + destruct (decide (k = name)) as [<-|Hne].
      * rewrite !lookup_insert_eq. reflexivity.
      * rewrite !lookup_insert_ne by exact Hne. apply IH.
    + intros j1 j2 z1 z2 y Hj _ _. apply insert_insert_ne. exact Hj.
    + exact Hk.
Qed.

(** A custom function that returns its name as text. *)
Definition custom_echo (text : string) : CustomFn := fun _ => Returned (text, None).

(** C3 (as the spec states it, refuted): with a custom function registered
    under ["bind"], the render's function table no longer maps ["bind"] to
    the binder's [Bind]. *)
Lemma funcmap_custom_bind_shadows :
  buildFuncMap (<["bind" := custom_echo "custom"]> ∅) !! "bind"
  = Some (FCustom (custom_echo "custom"))
  /\ buildFuncMap (<["bind" := custom_echo "custom"]> ∅) !! "bind" <> Some FBind.
Proof.
  rewrite buildFuncMap_lookup, lookup_insert_eq. split; [reflexivity | discriminate].
Qed.

(** C3 (amended): custom functions are inserted after the two built-ins, so
    a custom function registered as ["bind"] or ["identifier"] replaces the
    built-in of that name in the render's table; a built-in name with no
    custom registration maps to the fresh binder's method. *)
Theorem funcmap_custom_overrides_builtins (custom : gmap string CustomFn) :
  buildFuncMap custom !! "bind"
  = Some (match custom !! "bind" with Some fn => FCustom fn | None => FBind end)
  /\ buildFuncMap custom !! "identifier"
     = Some (match custom !! "identifier" with Some fn => FCustom fn | None => FIdentifier end).
Proof.
  rewrite !buildFuncMap_lookup.
  split; destruct (custom !! _); reflexivity.
Qed.

(* ------------------------------------------------------------------ *)
(** ** Claims about [Identifier] *)

(** C5: a text matching [^[A-Za-z0-9._]+$] is split on ["."], each segment
    is quoted for the dialect, and the pieces are rejoined with ["."];
    ["public.users"] gives ["public"."users"] (Postgres, Oracle),
    [[public].[users]] (SQL-Server) and [`public`.`users`] (MySQL, SQLite,
    Snowflake). *)
Theorem identifier_split_quote_join (qa : QueryArgs) (s : string) :
  identifierPattern_MatchString s = true ->
  Identifier qa (VString s)
  = (Returned (String.concat "." (map (quoteIdentifier qa) (split_on "." s))), qa)
  /\ (forall d, In d [DialectPostgres; DialectOracle] ->
        fst (Identifier (NewQueryArgs d) (VString "public.users"))
        = Returned (dquote ++ "public" ++ dquote ++ "." ++ dquote ++ "users" ++ dquote))
  /\ fst (Identifier (NewQueryArgs DialectSQLServer) (VString "public.users"))
     = Returned "[public].[users]"
  /\ (forall d, In d [DialectMySQL; DialectSQLite; DialectSnowflake] ->
        fst (Identifier (NewQueryArgs d) (VString "public.users"))
        = Returned "`public`.`users`").
Proof.
  intros Hm. split; [|split; [|split]].
  - unfold Identifier.
    destruct (String.eqb s "") eqn:He.
    + apply String.eqb_eq in He. subst s. discriminate.
    + rewrite Hm. reflexivity.
  - intros d [<-|[<-|[]]]; reflexivity.
  - reflexivity.
  - intros d [<-|[<-|[<-|[]]]]; reflexivity.
Qed.

Lemma identifier_split_quote_join_witness :
  identifierPattern_MatchString "main.table" = true
  /\ fst (Identifier (NewQueryArgs DialectSQLite) (VString "main.table"))
     = Returned (String.concat "."
                   (map (quoteIdentifier (NewQueryArgs DialectSQLite)) (split_on "." "main.table"))).
Proof.
  split; [reflexivity|].
  rewrite (proj1 (identifier_split_quote_join (NewQueryArgs DialectSQLite) "main.table" eq_refl)).
  reflexivity.
Defined.

(** A non-empty text value, the only input [Identifier] quotes or rejects. *)
Definition nonempty_string (v : any) : bool :=
  match v with VString s => negb (String.eqb s "") | _ => false end.

(** C6: [Identifier] never changes the binder's arguments; on a value that
    is not a string, or on the empty string, it returns the empty text
    without panicking. *)
Theorem identifier_frame (qa : QueryArgs) (v : any) :
  snd (Identifier qa v) = qa
  /\ (nonempty_string v = false -> fst (Identifier qa v) = Returned "").
Proof.
  split.
  - destruct v as [| | |s| | | |]; simpl; try reflexivity.
    destruct (String.eqb s ""); [reflexivity|].
    destruct (negb (identifierPattern_MatchString s)); reflexivity.
  - destruct v as [| | |s| | | |]; simpl; intros H; try reflexivity.
    destruct (String.eqb s ""); [reflexivity | discriminate].
Qed.

Lemma identifier_frame_witness :
  nonempty_string (VInt 123) = false
  /\ fst (Identifier (NewQueryArgs DialectMySQL) (VInt 123)) = Returned "".
Proof.
  split; [reflexivity|].
  apply (proj2 (identifier_frame (NewQueryArgs DialectMySQL) (VInt 123))). reflexivity.
Defined.

(* ------------------------------------------------------------------ *)
(** ** Snowflake placeholders *)

(** C7 (as the spec states it, refuted): under Snowflake, the first
    placeholder is ["?"], not ["$1"]. *)
Lemma snowflake_first_placeholder :
  fst (Bind (NewQueryArgs DialectSnowflake) (VInt 1)) = "?"
  /\ fst (Bind (NewQueryArgs DialectSnowflake) (VInt 1)) <> "$1".
Proof. split; [reflexivity | discriminate]. Qed.

(** C7 (amended): Snowflake falls to the default branch of
    [placeholderFor] with MySQL and SQLite: every position gives the
    repeated marker ["?"], and so does [Bind] on a scalar or on [nil]. *)
Theorem snowflake_placeholder_marker (a : list any) (n : nat) (v : any) :
  placeholderFor (mkQueryArgs a DialectSnowflake) n = "?"
  /\ (is_scalar v = true \/ v = Nil ->
      fst (Bind (mkQueryArgs a DialectSnowflake) v) = "?").
Proof.
  split; [reflexivity|].
  intros [Hs | ->]; [|reflexivity].
  rewrite Bind_scalar by exact Hs. reflexivity.
Qed.

Lemma snowflake_placeholder_marker_witness :
  (is_scalar (VBool true) = true \/ VBool true = Nil)
  /\ fst (Bind (mkQueryArgs [VInt 1] DialectSnowflake) (VBool true)) = "?".
Proof.
  split; [left; reflexivity|].
  apply (proj2 (snowflake_placeholder_marker [VInt 1] 2 (VBool true))).
  left; reflexivity.
Defined.

(* ------------------------------------------------------------------ *)
(** ** Execution lemmas *)

Lemma Execute_app (builtin : string -> list any -> string + exec_cause)
    (fm : gmap string Func) (data : gmap string any)
    (pre rest : template) (qa : QueryArgs) (buf : string) :
  Execute builtin fm data (app pre rest) qa buf
  = let! res := Execute builtin fm data pre qa buf in
    match res with
    | (None, buf1, qa1) => Execute builtin fm data rest qa1 buf1
    | _ => Returned res
    end.
Proof.
  revert qa buf. induction pre as [|[s|fn a] pre IH]; intros qa buf; simpl.
  - destruct (Execute builtin fm data rest qa buf); reflexivity.
  - apply IH.
  - destruct (findFunction fm fn) as [f|]; [|reflexivity].
    destruct (call builtin f (map (eval_arg data) a) qa) as [[s|cause] qa1]; [apply IH|reflexivity].
Qed.

(** The custom function names a render installs are all valid template
    identifiers. *)
Definition customNamesValid (IsLetterNonASCII IsDigitNonASCII : nat -> bool)
    (custom : gmap string CustomFn) : bool :=
  forallb (fun kv => goodName IsLetterNonASCII IsDigitNonASCII kv.1) (map_to_list custom).

Lemma forallb_map_to_list {V} (m : gmap string V) (f : string -> bool) :
  forallb (fun kv => f kv.1) (map_to_list m) = true <-> (forall k v, m !! k = Some v -> f k = true).
Proof.
  rewrite forallb_forall. split.
  - intros H k v Hk. apply (H (k, v)). apply list_elem_of_In, elem_of_map_to_list. exact Hk.
  - intros H [k v] Hin. apply (H k v). apply elem_of_map_to_list, list_elem_of_In. exact Hin.
Qed.

(** [Funcs] on a render's table panics exactly when a custom name is not a
    valid identifier: ["bind"] and ["identifier"] always are. *)
Lemma Funcs_buildFuncMap (L D : nat -> bool) (custom : gmap string CustomFn) :
  Funcs L D (buildFuncMap custom)
  = if customNamesValid L D custom then Returned tt else Panicked PInvalidFuncName.
Proof.
  unfold Funcs, customNamesValid.
  destruct (forallb (fun kv => goodName L D kv.1) (map_to_list custom)) eqn:Hv;
  destruct (forallb (fun kv => goodName L D kv.1) (map_to_list (buildFuncMap custom))) eqn:Hb;
  try reflexivity; exfalso.
  - apply not_true_iff_false in Hb. apply Hb. apply forallb_map_to_list.
    intros k v Hk. rewrite buildFuncMap_lookup in Hk.
    destruct (custom !! k) as [fn|] eqn:Hc.
    + exact (proj1 (forallb_map_to_list custom _) Hv k fn Hc).
    + destruct (decide (k = "bind")) as [->|Hne1]; [reflexivity|].
      destruct (decide (k = "identifier")) as [->|Hne2]; [reflexivity|].
      rewrite !lookup_insert_ne, lookup_empty in Hk by congruence. discriminate.
  - apply not_true_iff_false in Hv. apply Hv. apply forallb_map_to_list.
    intros k fn Hc. apply (proj1 (forallb_map_to_list (buildFuncMap custom) _) Hb k (FCustom fn)).
    rewrite buildFuncMap_lookup, Hc. reflexivity.
Qed.



Lemma MatchString_invalid (s : string) :
  Exists (fun c => ident_char c = false) (list_ascii_of_string s) ->
  identifierPattern_MatchString s = false.
Proof.
  intros Hex. unfold identifierPattern_MatchString.
  apply Exists_exists in Hex as [c [Hin Hc]].
  destruct (forallb ident_char (list_ascii_of_string s)) eqn:Hall.
  - rewrite forallb_forall in Hall. apply list_elem_of_In in Hin. rewrite (Hall c Hin) in Hc. discriminate.
  - apply andb_false_r.
Qed.

Lemma Exists_nonempty_string (s : string) (P : ascii -> Prop) :
  Exists P (list_ascii_of_string s) -> String.eqb s "" = false.
Proof. destruct s; simpl; [intros H; inversion H | reflexivity]. Qed.

(* ------------------------------------------------------------------ *)
(** ** Invalid identifiers inside a render *)

(** Whatever the library parameters, rendering a template that calls
    [identifier] on ["users;DROP"] returns the recovered panic as an error. *)
Lemma invalid_identifier_error_any_library (B : string -> list any -> string + exec_cause)
    (L D : nat -> bool) :
  FromStringWithDialect B L D (NewRenderer DialectPostgres)
    [NText "SELECT * FROM "; NCall "identifier" [ALit (VString "users;DROP")]]
    ∅ DialectPostgres
  = Returned ("", [],
      Some (ErrorCalling "identifier" (RecoveredPanic (PInvalidIdentifier "users;DROP")))).
Proof. reflexivity. Qed.

(** C4 (as the spec states it, refuted): rendering a template that calls
    [identifier] on ["users;DROP"] does not abort the render with a panic;
    the engine recovers the panic of [Identifier] and the render returns it
    as an ordinary error value. *)
Lemma invalid_identifier_returned_as_error :
  FromStringWithDialect print_builtin ascii_only ascii_only (NewRenderer DialectPostgres)
    [NText "SELECT * FROM "; NCall "identifier" [ALit (VString "users;DROP")]]
    ∅ DialectPostgres
  = Returned ("", [],
      Some (ErrorCalling "identifier" (RecoveredPanic (PInvalidIdentifier "users;DROP")))).
Proof. apply invalid_identifier_error_any_library. Qed.

(** C4 (amended): on a text with a character outside [[A-Za-z0-9._]],
    [Identifier] panics with a value carrying that text. When a render
    reaches a call of the built-in [identifier] whose argument (a constant
    or a data field) is such a text, the template engine recovers the
    panic: the render returns normally, with empty text, no arguments, and
    an error that carries the panic and so the text. This needs every
    custom function name to be a valid identifier; otherwise [Funcs] panics
    before the template is parsed. *)
Theorem invalid_identifier_panics_then_recovered
    (B : string -> list any -> string + exec_cause) (L D : nat -> bool)
    (s : string) (qa : QueryArgs) (r : Renderer) (pre post : template) (a : arg)
    (data : gmap string any) (d : Dialect) (buf : string) (qa1 : QueryArgs) :
  Exists (fun c => ident_char c = false) (list_ascii_of_string s) ->
  eval_arg data a = VString s ->
  customNamesValid L D (customFuncs r) = true ->
  customFuncs r !! "identifier" = None ->
  Parse (buildFuncMap (customFuncs r)) (app pre (NCall "identifier" [a] :: post)) = None ->
  Execute B (buildFuncMap (customFuncs r)) data pre (NewQueryArgs d) "" = Returned (None, buf, qa1) ->
  Identifier qa (VString s) = (Panicked (PInvalidIdentifier s), qa)
  /\ FromStringWithDialect B L D r (app pre (NCall "identifier" [a] :: post)) data d
     = Returned ("", [], Some (ErrorCalling "identifier" (RecoveredPanic (PInvalidIdentifier s)))).
Proof.
  intros Hinv Ha Hvalid Hcust Hparse Hpre.
  assert (Hid : forall q, Identifier q (VString s) = (Panicked (PInvalidIdentifier s), q)).
  { intros q. unfold Identifier.
    rewrite (Exists_nonempty_string s _ Hinv), (MatchString_invalid s Hinv). reflexivity. }
  split; [apply Hid|].
  unfold FromStringWithDialect. rewrite Funcs_buildFuncMap, Hvalid. simpl.
  rewrite Hparse, Execute_app, Hpre. simpl.
  unfold findFunction. rewrite buildFuncMap_lookup, Hcust.
  rewrite lookup_insert_ne by discriminate. rewrite lookup_insert_eq.
  simpl. rewrite Ha. unfold call. rewrite Hid. reflexivity.
Qed.

Lemma invalid_identifier_panics_then_recovered_witness :
  (Exists (fun c => ident_char c = false) (list_ascii_of_string "users;DROP")
   /\ eval_arg (<["Table" := VString "users;DROP"]> ∅) (AField "Table") = VString "users;DROP"
   /\ customNamesValid ascii_only ascii_only
        (customFuncs (AddFunc (NewRenderer DialectOracle) "upper" (custom_echo "U"))) = true
   /\ customFuncs (AddFunc (NewRenderer DialectOracle) "upper" (custom_echo "U")) !! "identifier" = None
   /\ Parse (buildFuncMap (customFuncs (AddFunc (NewRenderer DialectOracle) "upper" (custom_echo "U"))))
        (app [NCall "bind" [ALit (VInt 1)]]
           (NCall "identifier" [AField "Table"] :: [NText " x"])) = None
   /\ Execute print_builtin
        (buildFuncMap (customFuncs (AddFunc (NewRenderer DialectOracle) "upper" (custom_echo "U"))))
        (<["Table" := VString "users;DROP"]> ∅)
        [NCall "bind" [ALit (VInt 1)]] (NewQueryArgs DialectOracle) ""
      = Returned (None, ":1", mkQueryArgs [VInt 1] DialectOracle))
  /\ FromStringWithDialect print_builtin ascii_only ascii_only
       (AddFunc (NewRenderer DialectOracle) "upper" (custom_echo "U"))
       (app [NCall "bind" [ALit (VInt 1)]]
          (NCall "identifier" [AField "Table"] :: [NText " x"]))
       (<["Table" := VString "users;DROP"]> ∅) DialectOracle
     = Returned ("", [],
         Some (ErrorCalling "identifier" (RecoveredPanic (PInvalidIdentifier "users;DROP")))).
Proof.
  assert (Hex : Exists (fun c => ident_char c = false) (list_ascii_of_string "users;DROP")).
  { simpl. do 5 apply Exists_cons_tl. apply Exists_cons_hd. reflexivity. }
  split.
  - split; [exact Hex|]. repeat split; vm_compute; reflexivity.
  - refine (proj2 (invalid_identifier_panics_then_recovered print_builtin ascii_only ascii_only
                     "users;DROP" (NewQueryArgs DialectOracle)
                     (AddFunc (NewRenderer DialectOracle) "upper" (custom_echo "U"))
                     [NCall "bind" [ALit (VInt 1)]] [NText " x"] (AField "Table")
                     (<["Table" := VString "users;DROP"]> ∅) DialectOracle
                     ":1" (mkQueryArgs [VInt 1] DialectOracle) Hex _ _ _ _ _));
      vm_compute; reflexivity.
Defined.

(* ------------------------------------------------------------------ *)
(** ** Execution errors *)

(** A custom function that always returns a non-nil error. *)
Definition custom_fail (msg : string) : CustomFn := fun _ => Returned ("", Some msg).

(** C8: when template execution fails, the render returns the error with
    empty text and no arguments: whatever the binder had collected before
    the failing call is dropped. (With a custom function name that is not a
    valid identifier the render panics in [Funcs] and never executes.) *)
Theorem exec_error_discards_partial
    (B : string -> list any -> string + exec_cause) (L D : nat -> bool)
    (r : Renderer) (t : template) (data : gmap string any) (d : Dialect)
    (e : tmpl_error) (buf : string) (qa1 : QueryArgs) :
  customNamesValid L D (customFuncs r) = true ->
  Parse (buildFuncMap (customFuncs r)) t = None ->
  Execute B (buildFuncMap (customFuncs r)) data t (NewQueryArgs d) "" = Returned (Some e, buf, qa1) ->
  FromStringWithDialect B L D r t data d = Returned ("", [], Some e).
Proof.
  intros Hvalid Hparse Hexec.
  unfold FromStringWithDialect. rewrite Funcs_buildFuncMap, Hvalid. simpl.
  rewrite Hparse, Hexec. reflexivity.
Qed.

Lemma exec_error_discards_partial_witness :
  (customNamesValid ascii_only ascii_only
     (customFuncs (AddFunc (NewRenderer DialectMySQL) "fail" (custom_fail "boom"))) = true
   /\ Parse (buildFuncMap (customFuncs (AddFunc (NewRenderer DialectMySQL) "fail" (custom_fail "boom"))))
     [NCall "bind" [AField "IDs"]; NText " "; NCall "fail" []] = None
   /\ Execute print_builtin
        (buildFuncMap (customFuncs (AddFunc (NewRenderer DialectMySQL) "fail" (custom_fail "boom"))))
        (<["IDs" := VSlice [VInt 1; VInt 2]]> ∅)
        [NCall "bind" [AField "IDs"]; NText " "; NCall "fail" []] (NewQueryArgs DialectMySQL) ""
      = Returned (Some (ErrorCalling "fail" (ReturnedError "boom")), "(?, ?) ",
                  mkQueryArgs [VInt 1; VInt 2] DialectMySQL))
  /\ FromStringWithDialect print_builtin ascii_only ascii_only
       (AddFunc (NewRenderer DialectMySQL) "fail" (custom_fail "boom"))
       [NCall "bind" [AField "IDs"]; NText " "; NCall "fail" []]
       (<["IDs" := VSlice [VInt 1; VInt 2]]> ∅) DialectMySQL
     = Returned ("", [], Some (ErrorCalling "fail" (ReturnedError "boom"))).
Proof.
  split; [repeat split; vm_compute; reflexivity|].
  refine (exec_error_discards_partial print_builtin ascii_only ascii_only _ _ _ _ _
            "(?, ?) " (mkQueryArgs [VInt 1; VInt 2] DialectMySQL) _ _ _);
    vm_compute; reflexivity.
Defined.

(* ------------------------------------------------------------------ *)
(** ** Template-file resolution *)

Definition none_exist (Stat : string -> bool) (Join : string -> string -> string)
    (dirs : list string) (name : string) : Prop :=
  Forall (fun dir => Stat (Join dir name) = false) dirs.

Lemma search_dirs_first (Stat : string -> bool) (Join : string -> string -> string)
    (name dir : string) (before after : list string) :
  none_exist Stat Join before name ->
  Stat (Join dir name) = true ->
  search_dirs Stat Join (app before (dir :: after)) name = Some (Join dir name).
Proof.
  intros Hbefore Hdir. induction Hbefore as [|b before Hb _ IH]; simpl.
  - rewrite Hdir. reflexivity.
  - rewrite Hb. exact IH.
Qed.

Lemma search_dirs_none (Stat : string -> bool) (Join : string -> string -> string)
    (name : string) (dirs : list string) :
  none_exist Stat Join dirs name -> search_dirs Stat Join dirs name = None.
Proof.
  intros Hnone. induction Hnone as [|b dirs Hb _ IH]; simpl; [reflexivity|].
  rewrite Hb. exact IH.
Qed.

(** C9: a name that exists as a path is used as is; otherwise the first
    search-path directory, in the order the directories were added, under
    which [Join dir name] exists gives the path; when no candidate exists
    the error carries the requested name and the whole ordered search-path
    list. *)
Theorem findTemplateFile_order (Stat : string -> bool) (Join : string -> string -> string)
    (r : Renderer) (name : string) :
  (Stat name = true -> findTemplateFile Stat Join r name = inl name)
  /\ (forall before dir after,
        Stat name = false ->
        searchPaths r = app before (dir :: after) ->
        none_exist Stat Join before name ->
        Stat (Join dir name) = true ->
        findTemplateFile Stat Join r name = inl (Join dir name))
  /\ (Stat name = false ->
      none_exist Stat Join (searchPaths r) name ->
      findTemplateFile Stat Join r name = inr (TemplateNotFound name (searchPaths r))).
Proof.
  unfold findTemplateFile. split; [|split].
  - intros H. rewrite H. reflexivity.
  - intros before dir after Hn Hpaths Hbefore Hdir.
    rewrite Hn, Hpaths, (search_dirs_first Stat Join name dir before after Hbefore Hdir).
    reflexivity.
  - intros Hn Hnone. rewrite Hn, (search_dirs_none Stat Join name _ Hnone). reflexivity.
Qed.

(** A small file system for the witness: two files under [sql] and [lib]. *)
Definition fs_stat (p : string) : bool :=
  String.eqb p "lib/q.sql" || String.eqb p "sql/q.sql".
Definition fs_join (dir name : string) : string := dir ++ "/" ++ name.

Lemma findTemplateFile_order_witness :
  (fs_stat "q.sql" = false
   /\ searchPaths (AddSearchPath (AddSearchPath (AddSearchPath (NewRenderer DialectMySQL) "tmp") "sql") "lib")
      = app ["tmp"] ("sql" :: ["lib"])
   /\ none_exist fs_stat fs_join ["tmp"] "q.sql"
   /\ fs_stat (fs_join "sql" "q.sql") = true)
  /\ findTemplateFile fs_stat fs_join
       (AddSearchPath (AddSearchPath (AddSearchPath (NewRenderer DialectMySQL) "tmp") "sql") "lib")
       "q.sql"
     = inl "sql/q.sql".
Proof.
  split.
  - split; [reflexivity | split; [reflexivity | split; [repeat constructor | reflexivity]]].
  - refine (proj1 (proj2 (findTemplateFile_order fs_stat fs_join
              (AddSearchPath (AddSearchPath (AddSearchPath (NewRenderer DialectMySQL) "tmp") "sql") "lib")
              "q.sql")) ["tmp"] "sql" ["lib"] _ _ _ _).
    + reflexivity.
    + reflexivity.
    + repeat constructor.
    + reflexivity.
Defined.

(* ------------------------------------------------------------------ *)
(** ** Further properties of the binder *)

Lemma Bind_state (qa : QueryArgs) (v : any) :
  snd (Bind qa v) = mkQueryArgs (app (args qa) (bound_values v)) (dialect qa).
Proof.
  destruct v as [| | | | | |xs|xs]; try reflexivity.
  - simpl. rewrite app_nil_r. destruct qa; reflexivity.
  - unfold Bind; simpl. destruct (Nat.eqb (List.length xs) 0) eqn:Hn.
    + apply Nat.eqb_eq, length_zero_iff_nil in Hn. subst xs.
      rewrite app_nil_r. destruct qa; reflexivity.
    + unfold Index; rewrite map_Index_seq, bind_loop_spec. reflexivity.
  - unfold Bind; simpl. destruct (Nat.eqb (List.length xs) 0) eqn:Hn.
    + apply Nat.eqb_eq, length_zero_iff_nil in Hn. subst xs.
      rewrite app_nil_r. destruct qa; reflexivity.
    + unfold Index; rewrite map_Index_seq, bind_loop_spec. reflexivity.
Qed.

(** [Bind] only ever appends to the argument list, and what it appends is
    fixed by the value's shape: one [nil] for the untyped nil, every element
    of a slice or array in order (nothing for an empty or nil slice), the
    value itself otherwise. The dialect is never changed. *)
Theorem Bind_appends_bound_values (qa : QueryArgs) (v : any) :
  snd (Bind qa v) = mkQueryArgs (app (args qa) (bound_values v)) (dialect qa).
Proof. apply Bind_state. Qed.

(** The text [Bind] returns depends only on the dialect and on how many
    values are already bound, never on what those values are. *)
Theorem Bind_text_depends_on_count (a a' : list any) (d : Dialect) (v : any) :
  List.length a = List.length a' ->
  fst (Bind (mkQueryArgs a d) v) = fst (Bind (mkQueryArgs a' d) v).
Proof.
  intros H.
  destruct v as [| | | | | |xs|xs];
    try (unfold Bind; simpl; rewrite !length_app, H; reflexivity).
  - reflexivity.
  - unfold Bind; simpl. destruct (Nat.eqb (List.length xs) 0); [reflexivity|].
    unfold Index; rewrite map_Index_seq, !bind_loop_spec. simpl. rewrite H. reflexivity.
  - unfold Bind; simpl. destruct (Nat.eqb (List.length xs) 0); [reflexivity|].
    unfold Index; rewrite map_Index_seq, !bind_loop_spec. simpl. rewrite H. reflexivity.
Qed.

Lemma Bind_text_depends_on_count_witness :
  List.length [VInt 1; VInt 2] = List.length [VString "a"; Nil]
  /\ fst (Bind (mkQueryArgs [VInt 1; VInt 2] DialectPostgres) (VBool true))
     = fst (Bind (mkQueryArgs [VString "a"; Nil] DialectPostgres) (VBool true)).
Proof.
  split; [reflexivity|].
  apply Bind_text_depends_on_count. reflexivity.
Defined.

Lemma itoa_inj (n m : nat) : itoa n = itoa m -> n = m.
Proof.
  unfold itoa. intros H.
  apply DecimalNat.Unsigned.to_uint_inj.
  apply (f_equal NilEmpty.uint_of_string) in H.
  rewrite !NilEmpty.usu in H. injection H as H. exact H.
Qed.

(** Under the positional dialects (Postgres, SQL-Server, Oracle) two
    different positions never get the same placeholder text. *)
Theorem placeholderFor_positional_injective (a : list any) (d : Dialect) (n m : nat) :
  In d [DialectPostgres; DialectSQLServer; DialectOracle] ->
  placeholderFor (mkQueryArgs a d) n = placeholderFor (mkQueryArgs a d) m ->
  n = m.
Proof.
  intros Hd Heq. apply itoa_inj.
  destruct Hd as [<-|[<-|[<-|[]]]]; cbn in Heq; injection Heq; auto.
Qed.

Lemma placeholderFor_positional_injective_witness :
  In DialectOracle [DialectPostgres; DialectSQLServer; DialectOracle]
  /\ (placeholderFor (mkQueryArgs [] DialectOracle) 12 = placeholderFor (mkQueryArgs [] DialectOracle) 12 ->
      12 = 12).
Proof.
  split; [simpl; auto|].
  apply placeholderFor_positional_injective. simpl; auto.
Defined.

(* ------------------------------------------------------------------ *)
(** ** Further properties of [Identifier] *)

(** Removing the characters [cs] from a text. *)
Fixpoint strip (cs : list ascii) (s : string) : string :=
  match s with
  | EmptyString => EmptyString
  | String c rest => if existsb (Ascii.eqb c) cs then strip cs rest else String c (strip cs rest)
  end.

Lemma append_cons (c : ascii) (s t : string) : String c s ++ t = String c (s ++ t).
Proof. reflexivity. Qed.

Lemma string_app_nil_r (s : string) : s ++ EmptyString = s.
Proof. induction s as [|c s IH]; [reflexivity|]. rewrite append_cons, IH. reflexivity. Qed.

Lemma strip_app (cs : list ascii) (a b : string) : strip cs (a ++ b) = strip cs a ++ strip cs b.
Proof.
  induction a as [|c a IH]; [reflexivity|].
  rewrite append_cons. simpl. destruct (existsb (Ascii.eqb c) cs); rewrite IH; reflexivity.
Qed.

Lemma strip_id (cs : list ascii) (s : string) :
  Forall (fun c => existsb (Ascii.eqb c) cs = false) (list_ascii_of_string s) ->
  strip cs s = s.
Proof.
  induction s as [|c s IH]; simpl; intros H; [reflexivity|].
  inversion H as [|? ? Hc Hs]; subst. rewrite Hc, IH by exact Hs. reflexivity.
Qed.

Lemma concat_cons2 (sep x y : string) (l : list string) :
  String.concat sep (x :: y :: l) = x ++ sep ++ String.concat sep (y :: l).
Proof. reflexivity. Qed.

Lemma strip_concat (cs : list ascii) (sep : string) (l : list string) :
  strip cs (String.concat sep l) = String.concat (strip cs sep) (map (strip cs) l).
Proof.
  induction l as [|x [|y l] IH]; [reflexivity | reflexivity|].
  rewrite concat_cons2, !strip_app, IH. reflexivity.
Qed.

Lemma split_on_nonempty (sep : ascii) (s : string) : split_on sep s <> [].
Proof.
  destruct s as [|c s]; simpl; [discriminate|].
  destruct (Ascii.eqb c sep); [discriminate|].
  destruct (split_on sep s); discriminate.
Qed.

(** [strings.Join(strings.Split(s, sep), sep) == s] *)
Lemma concat_split_on (sep : ascii) (s : string) :
  String.concat (String sep EmptyString) (split_on sep s) = s.
Proof.
  induction s as [|c s IH]; [reflexivity|].
  simpl. pose proof (split_on_nonempty sep s) as Hne.
  destruct (Ascii.eqb_spec c sep) as [->|Hc].
  - destruct (split_on sep s) as [|p ps] eqn:E; [contradiction|].
    change (String sep (String.concat (String sep EmptyString) (p :: ps)) = String sep s).
    rewrite IH. reflexivity.
  - destruct (split_on sep s) as [|p ps] eqn:E; [contradiction|].
    destruct ps as [|q ps].
    + simpl in IH |- *. rewrite IH. reflexivity.
    + change (String c (String.concat (String sep EmptyString) (p :: q :: ps)) = String c s).
      rewrite IH. reflexivity.
Qed.

(** Every character of a piece of [strings.Split] is a character of the
    split text. *)
Lemma split_on_chars (sep : ascii) (s p : string) (x : ascii) :
  In p (split_on sep s) -> In x (list_ascii_of_string p) -> In x (list_ascii_of_string s).
Proof.
  revert p. induction s as [|c s IH]; intros p Hp Hx; simpl in *.
  - destruct Hp as [<-|[]]. contradiction.
  - destruct (Ascii.eqb c sep).
    + destruct Hp as [<-|Hp]; [contradiction|]. right. exact (IH p Hp Hx).
    + destruct (split_on sep s) as [|q qs] eqn:E.
      * destruct Hp as [<-|[]]. simpl in Hx. destruct Hx as [->|[]]. left; reflexivity.
      * destruct Hp as [<-|Hp].
        -- simpl in Hx. destruct Hx as [->|Hx]; [left; reflexivity|].
           right. apply (IH q); [left; reflexivity | exact Hx].
        -- right. apply (IH p); [right; exact Hp | exact Hx].
Qed.

Lemma MatchString_chars (s : string) (x : ascii) :
  identifierPattern_MatchString s = true -> In x (list_ascii_of_string s) -> ident_char x = true.
Proof.
  unfold identifierPattern_MatchString. intros H Hx.
  apply andb_prop in H as [_ H]. rewrite forallb_forall in H. exact (H x Hx).
Qed.

Lemma quote_chars_not_ident (qa : QueryArgs) (c : ascii) :
  In c (quote_chars qa) -> ident_char c = false.
Proof.
  unfold quote_chars.
  destruct (_ || _); [|destruct (String.eqb _ _)]; simpl;
    intros H; repeat destruct H as [<-|H]; try reflexivity; contradiction.
Qed.

Lemma quoteIdentifier_shape (qa : QueryArgs) (id : string) :
  exists l r, quoteIdentifier qa id = String l EmptyString ++ id ++ String r EmptyString
              /\ In l (quote_chars qa) /\ In r (quote_chars qa).
Proof.
  unfold quoteIdentifier, quote_chars.
  destruct (_ || _); [|destruct (String.eqb _ _)];
    eexists; eexists; (split; [reflexivity | simpl; auto]).
Qed.

Lemma existsb_eqb_In (c : ascii) (cs : list ascii) : existsb (Ascii.eqb c) cs = true <-> In c cs.
Proof.
  rewrite existsb_exists. split.
  - intros [y [Hy Heq]]. apply Ascii.eqb_eq in Heq. subst. exact Hy.
  - intros H. exists c. split; [exact H | apply Ascii.eqb_refl].
Qed.

(** [Identifier] adds nothing but the dialect's quote characters: removing
    them from the quoted text of a valid name gives back the name (its
    segments and dots unchanged, in order). *)
Theorem identifier_unquote_roundtrip (qa : QueryArgs) (s : string) :
  identifierPattern_MatchString s = true ->
  exists out, fst (Identifier qa (VString s)) = Returned out /\ strip (quote_chars qa) out = s.
Proof.
  intros Hm. unfold Identifier.
  destruct (String.eqb s "") eqn:He.
  { apply String.eqb_eq in He. subst s. discriminate. }
  rewrite Hm. simpl. eexists. split; [reflexivity|].
  rewrite strip_concat, map_map.
  assert (Hdot : strip (quote_chars qa) "." = ".").
  { apply strip_id. constructor; [|constructor].
    destruct (existsb _ _) eqn:E; [|reflexivity].
    apply existsb_eqb_In, quote_chars_not_ident in E. discriminate. }
  rewrite Hdot.
  rewrite <- (concat_split_on "." s) at 2.
  f_equal. transitivity (map id (split_on "." s)); [|apply map_id].
  apply map_ext_in. intros p Hp. unfold id.
  destruct (quoteIdentifier_shape qa p) as [l [r [Hq [Hl Hr]]]]. rewrite Hq.
  assert (Hpid : strip (quote_chars qa) p = p).
  { apply strip_id, Forall_forall. intros x Hx.
    destruct (existsb (Ascii.eqb x) (quote_chars qa)) eqn:Ex; [|reflexivity].
    apply existsb_eqb_In, quote_chars_not_ident in Ex.
    apply list_elem_of_In in Hx.
    rewrite (MatchString_chars s x Hm (split_on_chars "." s p x Hp Hx)) in Ex. discriminate. }
  apply existsb_eqb_In in Hl, Hr.
  rewrite !strip_app, Hpid. simpl. rewrite Hl, Hr.
  apply string_app_nil_r.
Qed.

Lemma identifier_unquote_roundtrip_witness :
  identifierPattern_MatchString "dbo.People" = true
  /\ exists out, fst (Identifier (NewQueryArgs DialectSQLServer) (VString "dbo.People")) = Returned out
           /\ strip (quote_chars (NewQueryArgs DialectSQLServer)) out = "dbo.People".
Proof.
  split; [reflexivity|].
  apply identifier_unquote_roundtrip. reflexivity.
Defined.

Lemma chars_app (a b : string) :
  list_ascii_of_string (a ++ b) = app (list_ascii_of_string a) (list_ascii_of_string b).
Proof.
  induction a as [|c a IH]; [reflexivity|].
  rewrite append_cons. simpl. rewrite IH. reflexivity.
Qed.

Lemma chars_concat (sep : string) (l : list string) (x : ascii) :
  In x (list_ascii_of_string (String.concat sep l)) ->
  In x (list_ascii_of_string sep) \/ exists p, In p l /\ In x (list_ascii_of_string p).
Proof.
  induction l as [|p [|q l] IH]; simpl; intros Hx.
  - contradiction.
  - right. exists p. auto.
  - rewrite !chars_app in Hx. apply in_app_or in Hx as [Hx|Hx].
    + right. exists p. auto.
    + apply in_app_or in Hx as [Hx|Hx]; [left; exact Hx|].
      destruct (IH Hx) as [H|[p' [Hp' Hx']]]; [left; exact H|].
      right. exists p'. simpl in Hp'. tauto.
Qed.

(** The text [Identifier] returns for a valid name holds only characters of
    the class [[A-Za-z0-9._]] and the dialect's quote characters: no
    separator, comment or other quote character can reach the query. *)
Theorem identifier_output_charset (qa : QueryArgs) (s out : string) (x : ascii) :
  fst (Identifier qa (VString s)) = Returned out ->
  In x (list_ascii_of_string out) ->
  ident_char x = true \/ In x (quote_chars qa).
Proof.
  unfold Identifier. destruct (String.eqb s "") eqn:He.
  { simpl. intros H. injection H as <-. simpl. tauto. }
  destruct (identifierPattern_MatchString s) eqn:Hm; simpl; [|discriminate].
  intros H. injection H as <-. intros Hx.
  apply chars_concat in Hx as [Hx|[q [Hq Hx]]].
  - left. simpl in Hx. destruct Hx as [<-|[]]. reflexivity.
  - apply in_map_iff in Hq as [p [<- Hp]].
    destruct (quoteIdentifier_shape qa p) as [l [r [Hsh [Hl Hr]]]].
    rewrite Hsh, !chars_app in Hx. simpl in Hx.
    destruct Hx as [<-|Hx]; [right; exact Hl|].
    apply in_app_or in Hx as [Hx|[<-|[]]]; [|right; exact Hr].
    left. exact (MatchString_chars s x Hm (split_on_chars "." s p x Hp Hx)).
Qed.

Lemma identifier_output_charset_witness :
  fst (Identifier (NewQueryArgs DialectPostgres) (VString "public.users"))
    = Returned (dquote ++ "public" ++ dquote ++ "." ++ dquote ++ "users" ++ dquote)
  /\ In "p"%char (list_ascii_of_string (dquote ++ "public" ++ dquote ++ "." ++ dquote ++ "users" ++ dquote))
  /\ (ident_char "p"%char = true \/ In "p"%char (quote_chars (NewQueryArgs DialectPostgres))).
Proof.
  split; [reflexivity | split; [simpl; auto|]].
  refine (identifier_output_charset (NewQueryArgs DialectPostgres) "public.users"
            (dquote ++ "public" ++ dquote ++ "." ++ dquote ++ "users" ++ dquote) "p"%char _ _).
  - reflexivity.
  - simpl; auto.
Defined.

(* ------------------------------------------------------------------ *)
(** ** Renderer configuration and the function table *)

(** After [r.AddFunc(name, fn)], every render's table maps [name] to [fn]
    (also for ["bind"] and ["identifier"]), and every other name as before. *)
Theorem AddFunc_funcmap (r : Renderer) (name k : string) (fn : CustomFn) :
  buildFuncMap (customFuncs (AddFunc r name fn)) !! name = Some (FCustom fn)
  /\ (k <> name ->
      buildFuncMap (customFuncs (AddFunc r name fn)) !! k = buildFuncMap (customFuncs r) !! k).
Proof.
  split.
  - rewrite buildFuncMap_lookup. simpl. rewrite lookup_insert_eq. reflexivity.
  - intros Hk. rewrite !buildFuncMap_lookup. simpl.
    rewrite lookup_insert_ne by congruence. reflexivity.
Qed.

Lemma AddFunc_funcmap_witness :
  "x" <> "bind"
  /\ buildFuncMap (customFuncs (AddFunc (NewRenderer DialectMySQL) "bind" (custom_echo "b"))) !! "x"
     = buildFuncMap (customFuncs (NewRenderer DialectMySQL)) !! "x".
Proof.
  assert (H : "x" <> "bind") by discriminate.
  split; [exact H|].
  exact (proj2 (AddFunc_funcmap (NewRenderer DialectMySQL) "bind" "x" (custom_echo "b")) H).
Defined.

(** [r.AddFuncs(funcs)] merges [funcs] into the custom functions: a name in
    [funcs] takes its new function, any other name keeps its old one. *)
Theorem AddFuncs_lookup (r : Renderer) (funcs : gmap string CustomFn) (k : string) :
  customFuncs (AddFuncs r funcs) !! k
  = match funcs !! k with Some fn => Some fn | None => customFuncs r !! k end.
Proof.
  unfold AddFuncs; simpl. revert k.
  induction funcs as [|i fn m Hi IH] using map_ind; intros k.
  - rewrite map_fold_empty, lookup_empty. reflexivity.
  - rewrite map_fold_insert_L.
    + destruct (decide (i = k)) as [<-|Hne].
      * rewrite !lookup_insert_eq. reflexivity.
      * rewrite !lookup_insert_ne by exact Hne. apply IH.
    + intros j1 j2 z1 z2 y Hj _ _. apply insert_insert_ne. exact Hj.
    + exact Hi.
Qed.

(* ------------------------------------------------------------------ *)
(** ** Template-file resolution and rendering *)

(** [findTemplateFile] only returns a candidate that exists: the name
    itself, or the name joined onto one of the search-path directories. *)
Theorem findTemplateFile_exists (Stat : string -> bool) (Join : string -> string -> string)
    (r : Renderer) (name p : string) :
  findTemplateFile Stat Join r name = inl p ->
  Stat p = true /\ (p = name \/ exists dir, In dir (searchPaths r) /\ p = Join dir name).
Proof.
  unfold findTemplateFile. destruct (Stat name) eqn:Hn.
  - intros H. injection H as <-. auto.
  - assert (Hs : forall dirs, search_dirs Stat Join dirs name = Some p ->
                 Stat p = true /\ exists dir, In dir dirs /\ p = Join dir name).
    { induction dirs as [|dir dirs IH]; simpl; [discriminate|].
      destruct (Stat (Join dir name)) eqn:Hd.
      - intros H. injection H as <-. split; [exact Hd|]. exists dir. auto.
      - intros H. destruct (IH H) as [Hp [d [Hin ->]]]. split; [exact Hp|]. exists d. auto. }
    destruct (search_dirs Stat Join (searchPaths r) name) eqn:E; [|discriminate].
    intros H. injection H as <-. destruct (Hs _ E) as [Hp Hex]. auto.
Qed.

Lemma findTemplateFile_exists_witness :
  findTemplateFile fs_stat fs_join (AddSearchPath (NewRenderer DialectMySQL) "lib") "q.sql"
    = inl "lib/q.sql"
  /\ fs_stat "lib/q.sql" = true
  /\ ("lib/q.sql" = "q.sql"
      \/ exists dir, In dir (searchPaths (AddSearchPath (NewRenderer DialectMySQL) "lib"))
                     /\ "lib/q.sql" = fs_join dir "q.sql").
Proof.
  split; [reflexivity|].
  apply findTemplateFile_exists. reflexivity.
Defined.

Lemma search_dirs_app_some (Stat : string -> bool) (Join : string -> string -> string)
    (dirs more : list string) (name p : string) :
  search_dirs Stat Join dirs name = Some p ->
  search_dirs Stat Join (app dirs more) name = Some p.
Proof.
  induction dirs as [|dir dirs IH]; simpl; [discriminate|].
  destruct (Stat (Join dir name)); [auto | exact IH].
Qed.

(** Adding a search path never changes where an already resolvable
    template is found: earlier directories keep priority. *)
Theorem AddSearchPath_keeps_resolution (Stat : string -> bool) (Join : string -> string -> string)
    (r : Renderer) (dir name p : string) :
  findTemplateFile Stat Join r name = inl p ->
  findTemplateFile Stat Join (AddSearchPath r dir) name = inl p.
Proof.
  unfold findTemplateFile; simpl. destruct (Stat name); [auto|].
  destruct (search_dirs Stat Join (searchPaths r) name) eqn:E; [|discriminate].
  rewrite (search_dirs_app_some _ _ _ [dir] _ _ E). auto.
Qed.

Lemma AddSearchPath_keeps_resolution_witness :
  findTemplateFile fs_stat fs_join (AddSearchPath (NewRenderer DialectMySQL) "sql") "q.sql" = inl "sql/q.sql"
  /\ findTemplateFile fs_stat fs_join
       (AddSearchPath (AddSearchPath (NewRenderer DialectMySQL) "sql") "lib") "q.sql" = inl "sql/q.sql".
Proof.
  split; [reflexivity|].
  apply AddSearchPath_keeps_resolution. reflexivity.
Defined.

(* ------------------------------------------------------------------ *)
(** ** Whole renders *)




Lemma call_state (B : string -> list any -> string + exec_cause)
    (f : Func) (argv : list any) (qa : QueryArgs) :
  exists suffix, snd (call B f argv qa) = mkQueryArgs (app (args qa) suffix) (dialect qa).
Proof.
  destruct f as [| |fn|name]; simpl.
  - destruct argv as [|v [|w argv]]; simpl;
      try (exists []; rewrite app_nil_r; destruct qa; reflexivity).
    destruct (Bind qa v) as [s qa1] eqn:E. simpl.
    exists (bound_values v). rewrite <- (Bind_state qa v), E. reflexivity.
  - exists []. rewrite app_nil_r. destruct qa.
    destruct argv as [|v [|w argv]]; simpl; try reflexivity.
    destruct v as [| | |s| | | |]; simpl; try reflexivity.
    destruct (String.eqb s ""); [reflexivity|].
    destruct (negb (identifierPattern_MatchString s)); reflexivity.
  - exists []. rewrite app_nil_r. destruct qa; reflexivity.
  - exists []. rewrite app_nil_r. destruct qa; reflexivity.
Qed.

(** During execution the binder only grows at the end and keeps its
    dialect, also when execution stops on an error: arguments already
    bound are never reordered, changed or removed. *)
Theorem Execute_append_only (B : string -> list any -> string + exec_cause)
    (fm : gmap string Func) (data : gmap string any) (t : template)
    (qa : QueryArgs) (buf : string) (e : option tmpl_error) (out : string) (qa' : QueryArgs) :
  Execute B fm data t qa buf = Returned (e, out, qa') ->
  exists suffix, qa' = mkQueryArgs (app (args qa) suffix) (dialect qa).
Proof.
  revert qa buf. induction t as [|[s|fn a] t IH]; intros qa buf; simpl.
  - intros H. injection H as _ _ <-. exists []. rewrite app_nil_r. destruct qa; reflexivity.
  - apply IH.
  - destruct (findFunction fm fn) as [f|].
    + destruct (call_state B f (map (eval_arg data) a) qa) as [suf Hsuf].
      destruct (call B f (map (eval_arg data) a) qa) as [[s|cause] qa1]; simpl in Hsuf; subst qa1.
      * intros H. destruct (IH _ _ H) as [suf2 ->]. simpl.
        exists (app suf suf2). rewrite app_assoc. reflexivity.
      * intros H. injection H as _ _ <-. exists suf. reflexivity.
    + intros H. injection H as _ _ <-. exists []. rewrite app_nil_r. destruct qa; reflexivity.
Qed.

Lemma Execute_append_only_witness :
  Execute print_builtin (buildFuncMap ∅) ∅ [NCall "bind" [ALit (VInt 7)]; NCall "nope" []]
    (mkQueryArgs [VInt 1] DialectPostgres) ""
    = Returned (Some (FuncNotDefined "nope"), "$2", mkQueryArgs [VInt 1; VInt 7] DialectPostgres)
  /\ exists suffix, mkQueryArgs [VInt 1; VInt 7] DialectPostgres
                    = mkQueryArgs (app (args (mkQueryArgs [VInt 1] DialectPostgres)) suffix)
                        (dialect (mkQueryArgs [VInt 1] DialectPostgres)).
Proof.
  assert (H : Execute print_builtin (buildFuncMap ∅) ∅ [NCall "bind" [ALit (VInt 7)]; NCall "nope" []]
                (mkQueryArgs [VInt 1] DialectPostgres) ""
              = Returned (Some (FuncNotDefined "nope"), "$2", mkQueryArgs [VInt 1; VInt 7] DialectPostgres)).
  { vm_compute. reflexivity. }
  split; [exact H|].
  exact (Execute_append_only _ _ _ _ _ _ _ _ _ H).
Defined.















(** The file system of the example below: [sql/q.sql] holds a [bind]
    template, any other path is unreadable. *)
Definition fs_read (p : string) : template + string :=
  if String.eqb p "sql/q.sql" then inl [NText "VALUES "; NCall "bind" [AField "IDs"]]
  else inr "is a directory".

Example from_template_sqlserver :
  FromTemplate fs_stat fs_join fs_read print_builtin ascii_only ascii_only
    (AddSearchPath (SetDefaultDialect (NewRenderer DialectMySQL) DialectSQLServer) "sql")
    "q.sql" (<["IDs" := VSlice [VInt 7; VInt 8]]> ∅)
  = Returned ("VALUES (@p1, @p2)", [VInt 7; VInt 8], None).
Proof. vm_compute. reflexivity. Qed.
